(** * Stopword filter ([stopwords.py]): shallow embedding and properties

    Python [str] values are embedded as [string]: a sequence of characters
    whose code points lie in U+0000..U+00FF, one [ascii] per code point.
    On that range [str.lower] is a per-character map and [str.split]
    separates on the twelve white-space code points listed in [isspace].
    Python [set] values of strings are [gset string].

    The unit prompt and the category chain of [Week1/BMICalculator2.py] are
    embedded in [Module BMI]; the arithmetic of the script is on floats and
    is left out. *)

From Stdlib Require Import Ascii String List Bool Arith Lia QArith Lqa.
From stdpp Require Import base decidable gmap strings list.
Import ListNotations.
Open Scope string_scope.
Open Scope list_scope.

(** ** The Python built-ins used by the module *)

Module Py.

(** [c.lower()] for one character below U+0100: A-Z and the upper-case
    letters of U+00C0..U+00DE (the multiplication sign U+00D7 apart) move
    up by 32, every other character is unchanged. *)
Definition lower_char (c : ascii) : ascii :=
  let n := nat_of_ascii c in
  if ((65 <=? n) && (n <=? 90))%nat then ascii_of_nat (n + 32)
  else if ((192 <=? n) && (n <=? 222) && negb (n =? 215))%nat
       then ascii_of_nat (n + 32)
       else c.

(** [s.lower()] *)
Fixpoint lower (s : string) : string :=
  match s with
  | EmptyString => EmptyString
  | String c s' => String (lower_char c) (lower s')
  end.

(** [c.isspace()] for one character below U+0100: tab, line feed, vertical
    tab, form feed, carriage return, the four separators U+001C..U+001F,
    space, next line U+0085 and no-break space U+00A0. *)
Definition isspace (c : ascii) : bool :=
  let n := nat_of_ascii c in
  (((9 <=? n) && (n <=? 13)) || ((28 <=? n) && (n <=? 32))
   || (n =? 133) || (n =? 160))%nat.

(** [s.split()] with no argument: runs of white space separate the words,
    and no empty word is produced.  [cur] is the word being read. *)
Fixpoint split_from (cur : string) (s : string) : list string :=
  match s with
  | EmptyString => if String.eqb cur "" then [] else [cur]
  | String c s' =>
      if isspace c
      then (if String.eqb cur "" then split_from "" s'
            else cur :: split_from "" s')
      else split_from (cur +:+ String c "") s'
  end.

Definition split (s : string) : list string := split_from "" s.

(** [sep.join(l)] *)
Fixpoint join (sep : string) (l : list string) : string :=
  match l with
  | [] => ""
  | [x] => x
  | x :: rest => x +:+ sep +:+ join sep rest
  end.

(** [c in s] for a one-character string [c] *)
Fixpoint char_in (c : ascii) (s : string) : bool :=
  match s with
  | EmptyString => false
  | String d s' => Ascii.eqb c d || char_in c s'
  end.

(** [s[-1]], defined when [len(s) > 0] *)
Fixpoint last_char (s : string) : option ascii :=
  match s with
  | EmptyString => None
  | String c EmptyString => Some c
  | String _ s' => last_char s'
  end.

(** [s[:-1]] *)
Fixpoint drop_last (s : string) : string :=
  match s with
  | EmptyString => EmptyString
  | String _ EmptyString => EmptyString
  | String c s' => String c (drop_last s')
  end.

End Py.

(** ** The three word sets *)

Definition DEFAULT_STOPWORDS : gset string := list_to_set [
  "a"; "an"; "the";
  "and"; "or"; "but"; "so"; "because"; "as"; "if"; "than"; "then"; "that";
  "this"; "these"; "those";
  "in"; "on"; "at"; "to"; "from"; "of"; "for"; "with"; "about"; "into";
  "over"; "under"; "between";
  "after"; "before"; "during"; "through"; "against"; "without"; "within";
  "is"; "am"; "are"; "was"; "were"; "be"; "been"; "being";
  "do"; "does"; "did";
  "have"; "has"; "had";
  "can"; "could"; "may"; "might"; "must"; "shall"; "should"; "will"; "would";
  "very"; "really"; "just"; "also"; "too"; "quite"; "rather";
  "it"; "its"; "it's"; "im"; "i'm"; "youre"; "you're"; "theyre"; "they're"
].

Definition NEGATIONS : gset string := list_to_set [
  "no"; "not"; "never"; "none"; "nothing"; "nowhere";
  "can't"; "cannot"; "dont"; "don't"; "doesn't"; "didn't";
  "won't"; "wouldn't"; "shouldn't"; "isn't"; "aren't"; "wasn't"; "weren't"
].

Definition PRONOUNS : gset string := list_to_set [
  "i"; "me"; "my"; "mine";
  "we"; "us"; "our"; "ours";
  "you"; "your"; "yours";
  "he"; "him"; "his";
  "she"; "her"; "hers";
  "they"; "them"; "their"; "theirs"
].

(** ** [_normalize_token] *)

(** The sixteen characters of [punct]; the seventh is the double quote. *)
Definition punct : string :=
  ".,!?;:" +:+ String (ascii_of_nat 34) "'()[]{}<>".

(** First loop: [while len(token) > 0 and token[0] in punct: token = token[1:]] *)
Fixpoint strip_leading (token : string) : string :=
  match token with
  | EmptyString => token
  | String c rest => if Py.char_in c punct then strip_leading rest else token
  end.

(** Second loop: [while len(token) > 0 and token[-1] in punct: token = token[:-1]].
    Each round shortens the token by one character, so [fuel] rounds are
    enough when [fuel] is the length of the token at entry. *)
Fixpoint strip_trailing_loop (fuel : nat) (token : string) : string :=
  match fuel with
  | O => token
  | S fuel' =>
      match Py.last_char token with
      | Some c =>
          if Py.char_in c punct
          then strip_trailing_loop fuel' (Py.drop_last token)
          else token
      | None => token
      end
  end.

Definition strip_trailing (token : string) : string :=
  strip_trailing_loop (String.length token) token.

Definition _normalize_token (token : string) : string :=
  let token := Py.lower token in
  let token := strip_leading token in
  let token := strip_trailing token in
  token.

(** ** [remove_stopwords] *)

(** The first argument is a string or a list of tokens. *)
Inductive text_or_tokens : Type :=
| Text (s : string)
| Tokens (l : list string).

(** The function returns a list of strings or a string. *)
Inductive result : Type :=
| RList (l : list string)
| RStr (s : string).

(** [w in s] for a set [s] *)
Definition mem (w : string) (s : gset string) : bool := bool_decide (w ∈ s).

(** The [for tok in raw_tokens] loop; [cleaned] is the list built so far. *)
Fixpoint filter_loop (stopwords : gset string) (keep_negations keep_pronouns : bool)
    (raw_tokens : list string) (cleaned : list string) : list string :=
  match raw_tokens with
  | [] => cleaned
  | tok :: rest =>
      let continue := filter_loop stopwords keep_negations keep_pronouns rest in
      let norm := _normalize_token tok in
      if String.eqb norm "" then continue cleaned
      else if keep_negations && mem norm NEGATIONS then continue (cleaned ++ [norm])
      else if keep_pronouns && mem norm PRONOUNS then continue (cleaned ++ [norm])
      else if mem norm stopwords then continue cleaned
      else continue (cleaned ++ [norm])
  end.

Definition raw_tokens_of (x : text_or_tokens) : list string :=
  match x with
  | Text s => Py.split s
  | Tokens l => l
  end.

Definition remove_stopwords (x : text_or_tokens) (stopwords : option (gset string))
    (keep_negations keep_pronouns : bool) (return_type : string) : result :=
  let stopwords :=
    match stopwords with
    | None => DEFAULT_STOPWORDS
    | Some s => s
    end in
  let raw_tokens := raw_tokens_of x in
  let cleaned := filter_loop stopwords keep_negations keep_pronouns raw_tokens [] in
  if String.eqb return_type "text" then RStr (Py.join " " cleaned)
  else RList cleaned.

(** The test sentence of the module's runner. *)
Definition test_text : string :=
  "I am not happy with the battery life, but it is not terrible.".

(** ** [Week1/BMICalculator2.py]: the unit prompt and the category chain *)

Module BMI.

(** [x in l] for a list of strings [l] *)
Definition str_in (x : string) (l : list string) : bool :=
  existsb (String.eqb x) l.

(** The test of the prompt loop: [a.lower() in ["metric", "imperial"]] *)
Definition accepted (a : string) : bool :=
  str_in (Py.lower a) ["metric"; "imperial"].

Definition invalid_unit : string :=
  "Invalid unit. Please enter 'metric' or 'imperial'.".

(** The [while True] loop around [input].  [answers] are the lines [input]
    returns, in order, and [printed] the lines [print] has written so far.
    The loop gives the accepted answer as it was typed, the answers not yet
    read and the lines printed; [None] when the answers run out before one
    is accepted, where [input] raises [EOFError]. *)
Fixpoint ask_unit (answers : list string) (printed : list string)
    : option (string * list string * list string) :=
  match answers with
  | [] => None
  | a :: rest =>
      if accepted a then Some (a, rest, printed)
      else ask_unit rest (printed ++ [invalid_unit])
  end.

(** The two assignments to [BMI]: [c / (b ** 2)] and [703 * c / (b ** 2)]. *)
Inductive formula : Type :=
| Metric_formula
| Imperial_formula.

(** [if a == "metric": ... else: ...] *)
Definition formula_for (a : string) : formula :=
  if String.eqb a "metric" then Metric_formula else Imperial_formula.

(** A Python float as the comparisons see it: a finite value, which is a
    rational number, an infinity or a NaN. *)
Inductive pyfloat : Type :=
| Finite (q : Q)
| PosInf
| NegInf
| NaN.

(** [v <= k] for a finite constant [k]; every comparison with a NaN is
    false. *)
Definition le_const (v : pyfloat) (k : Q) : bool :=
  match v with
  | Finite q => Qle_bool q k
  | NegInf => true
  | PosInf => false
  | NaN => false
  end.

(** The [if]/[elif] chain that sets [category]. *)
Definition category (BMI : pyfloat) : string :=
  if le_const BMI 16 then "Severe Thinness"
  else if le_const BMI 17 then "Moderate Thinness"
  else if le_const BMI (37 # 2) then "Mild Thinness"
  else if le_const BMI 25 then "Normal"
  else if le_const BMI 30 then "Overweight"
  else if le_const BMI 35 then "Obese Class I"
  else if le_const BMI 40 then "Obese Class II"
  else "Obese Class III".

End BMI.

(** ** Vocabulary of the properties *)

(** A token is in lower case when [lower] leaves it alone. *)
Definition lowered (s : string) : Prop := Py.lower s = s.

(** Every character of [s] is a punctuation character. *)
Fixpoint all_punct (s : string) : bool :=
  match s with
  | EmptyString => true
  | String c s' => Py.char_in c punct && all_punct s'
  end.

(** The exit condition of the first loop. *)
Definition head_ok (s : string) : Prop :=
  match s with
  | EmptyString => True
  | String c _ => Py.char_in c punct = false
  end.

(** The exit condition of the second loop. *)
Definition last_ok (s : string) : Prop :=
  match Py.last_char s with
  | None => True
  | Some c => Py.char_in c punct = false
  end.

(** The stopword set in force: the caller's, or the default one. *)
Definition active_stopwords (stopwords : option (gset string)) : gset string :=
  match stopwords with
  | None => DEFAULT_STOPWORDS
  | Some s => s
  end.

(** The decision the loop body takes on a normalized token: [true] when the
    token is appended to [cleaned]. *)
Definition retained (stopwords : gset string) (keep_negations keep_pronouns : bool)
    (norm : string) : bool :=
  if String.eqb norm "" then false
  else if keep_negations && mem norm NEGATIONS then true
  else if keep_pronouns && mem norm PRONOUNS then true
  else if mem norm stopwords then false
  else true.

(** No character of [s] is white space. *)
Fixpoint no_space (s : string) : bool :=
  match s with
  | EmptyString => true
  | String c s' => negb (Py.isspace c) && no_space s'
  end.

(** Every character of [s] is white space. *)
Fixpoint all_space (s : string) : bool :=
  match s with
  | EmptyString => true
  | String c s' => Py.isspace c && all_space s'
  end.

(** A word as [split] produces them: not empty, no white space inside. *)
Definition is_word (s : string) : bool :=
  negb (String.eqb s "") && no_space s.

(** The second loop of [_normalize_token] by recursion on the token: the
    token without its longest suffix of punctuation characters. *)
Fixpoint rstrip_punct (s : string) : string :=
  match s with
  | EmptyString => EmptyString
  | String c s' =>
      match rstrip_punct s' with
      | EmptyString =>
          if Py.char_in c punct then EmptyString else String c EmptyString
      | r => String c r
      end
  end.

(** A word of a word set is canonical when it is its own normalized form
    and is not empty. *)
Definition canonical (w : string) : bool :=
  String.eqb (_normalize_token w) w && negb (String.eqb w "").

(** The three word sets as the lists the module builds them from. *)
Definition word_set_elements : list string :=
  elements DEFAULT_STOPWORDS ++ elements NEGATIONS ++ elements PRONOUNS.

Arguments Py.char_in : simpl never.

(** ** The built-ins on small inputs *)

Example split_runs : Py.split "  a  b c " = ["a"; "b"; "c"].
Proof. reflexivity. Qed.

Example split_blank : Py.split "   " = [] ∧ Py.split "" = [].
Proof. split; reflexivity. Qed.

Example join_three : Py.join " " ["a"; "b"; "c"] = "a b c" ∧ Py.join " " [] = "".
Proof. split; reflexivity. Qed.

Example lower_mixed : Py.lower "Don'T [Ab]" = "don't [ab]".
Proof. reflexivity. Qed.

Example normalize_only_punct : _normalize_token "(...)" = "".
Proof. vm_compute. reflexivity. Qed.

Example normalize_both_ends : _normalize_token "((Don't!)'" = "don't".
Proof. vm_compute. reflexivity. Qed.

(** ** Characters and strings *)

Section CharFacts.

(** Case analysis over the 256 characters. *)
Local Ltac all_chars c :=
  destruct c as [[] [] [] [] [] [] [] []]; vm_compute; try reflexivity; try discriminate.

Lemma lower_char_idem (c : ascii) :
  Py.lower_char (Py.lower_char c) = Py.lower_char c.
Proof. all_chars c. Qed.

End CharFacts.

Lemma lower_idem (s : string) : Py.lower (Py.lower s) = Py.lower s.
Proof.
  induction s as [|c s IH]; simpl; [reflexivity|].
  now rewrite lower_char_idem, IH.
Qed.

Lemma append_cons (x : ascii) (a b : string) :
  String x a +:+ b = String x (a +:+ b).
Proof. reflexivity. Qed.

Lemma append_empty_l (a : string) : "" +:+ a = a.
Proof. reflexivity. Qed.

Lemma append_assoc (a b c : string) : (a +:+ b) +:+ c = a +:+ (b +:+ c).
Proof.
  induction a as [|x a IH]; [reflexivity|].
  now rewrite !append_cons, IH.
Qed.

Lemma append_empty_r (a : string) : a +:+ "" = a.
Proof.
  induction a as [|x a IH]; [reflexivity|].
  now rewrite append_cons, IH.
Qed.

(** [token == token[:-1] + token[-1]] for a non-empty token. *)
Lemma drop_last_last (s : string) (c : ascii) :
  Py.last_char s = Some c → s = Py.drop_last s +:+ String c "".
Proof.
  induction s as [|x s IH]; [discriminate|].
  destruct s as [|y s].
  - now intros [= ->].
  - intros H.
    change (String x (String y s) =
            String x (Py.drop_last (String y s) +:+ String c "")).
    now rewrite <- (IH H).
Qed.

Lemma length_drop_last (s : string) :
  String.length (Py.drop_last s) = pred (String.length s).
Proof.
  induction s as [|x s IH]; [reflexivity|].
  destruct s as [|y s]; [reflexivity|].
  change (S (String.length (Py.drop_last (String y s))) = S (String.length s)).
  now rewrite IH.
Qed.

Lemma lowered_cons (c : ascii) (s : string) :
  lowered (String c s) ↔ Py.lower_char c = c ∧ lowered s.
Proof.
  unfold lowered; simpl; split.
  - intros [= H1 H2]. now split.
  - intros [-> ->]. reflexivity.
Qed.

Lemma lowered_drop_last (s : string) : lowered s → lowered (Py.drop_last s).
Proof.
  induction s as [|x s IH]; [trivial|].
  intros [Hx Hs]%lowered_cons.
  destruct s as [|y s]; [reflexivity|].
  change (lowered (String x (Py.drop_last (String y s)))).
  apply lowered_cons. auto.
Qed.

(** ** The two loops of [_normalize_token] *)

Lemma all_punct_app (a b : string) :
  all_punct (a +:+ b) = all_punct a && all_punct b.
Proof.
  induction a as [|x a IH]; [reflexivity|].
  rewrite append_cons. simpl. now rewrite IH, andb_assoc.
Qed.

Lemma strip_leading_exit (s : string) : head_ok (strip_leading s).
Proof.
  induction s as [|c s IH]; simpl; [exact I|].
  destruct (Py.char_in c punct) eqn:E; [exact IH | exact E].
Qed.

Lemma strip_leading_fix (s : string) : head_ok s → strip_leading s = s.
Proof. destruct s as [|c s]; simpl; [reflexivity | now intros ->]. Qed.

Lemma strip_leading_split (s : string) :
  ∃ pre, s = pre +:+ strip_leading s ∧ all_punct pre = true.
Proof.
  induction s as [|c s (pre & Hs & Hp)]; simpl.
  - now exists "".
  - destruct (Py.char_in c punct) eqn:E.
    + exists (String c pre). rewrite append_cons, <- Hs. simpl.
      now rewrite E, Hp.
    + now exists "".
Qed.

Lemma strip_leading_lowered (s : string) : lowered s → lowered (strip_leading s).
Proof.
  induction s as [|c s IH]; simpl; [trivial|].
  intros H. destruct (Py.char_in c punct); [|exact H].
  apply IH. now apply lowered_cons in H.
Qed.

(** The second loop leaves its loop once the fuel covers the token. *)
Lemma strip_trailing_loop_exit (fuel : nat) (s : string) :
  (String.length s ≤ fuel)%nat → last_ok (strip_trailing_loop fuel s).
Proof.
  revert s; induction fuel as [|fuel IH]; intros s Hlen; simpl.
  - destruct s; [exact I | simpl in Hlen; lia].
  - unfold last_ok. destruct (Py.last_char s) as [c|] eqn:El.
    + destruct (Py.char_in c punct) eqn:E.
      * apply IH. rewrite length_drop_last. lia.
      * now rewrite El.
    + now rewrite El.
Qed.

Lemma strip_trailing_loop_fix (fuel : nat) (s : string) :
  last_ok s → strip_trailing_loop fuel s = s.
Proof.
  unfold last_ok. destruct fuel as [|fuel]; simpl; [reflexivity|].
  destruct (Py.last_char s); [|reflexivity]. now intros ->.
Qed.

Lemma strip_trailing_loop_split (fuel : nat) (s : string) :
  ∃ suf, s = strip_trailing_loop fuel s +:+ suf ∧ all_punct suf = true.
Proof.
  revert s; induction fuel as [|fuel IH]; intros s; simpl.
  - exists "". now rewrite append_empty_r.
  - destruct (Py.last_char s) as [c|] eqn:El.
    + destruct (Py.char_in c punct) eqn:E.
      * destruct (IH (Py.drop_last s)) as (suf & Hs & Hp).
        exists (suf +:+ String c ""). split.
        -- rewrite <- append_assoc, <- Hs. now apply drop_last_last.
        -- rewrite all_punct_app, Hp. simpl. now rewrite E.
      * exists "". now rewrite append_empty_r.
    + exists "". now rewrite append_empty_r.
Qed.

Lemma strip_trailing_loop_lowered (fuel : nat) (s : string) :
  lowered s → lowered (strip_trailing_loop fuel s).
Proof.
  revert s; induction fuel as [|fuel IH]; intros s H; simpl; [exact H|].
  destruct (Py.last_char s) as [c|]; [|exact H].
  destruct (Py.char_in c punct); [|exact H].
  apply IH. now apply lowered_drop_last.
Qed.

(** A first character that is no punctuation survives the second loop. *)
Lemma strip_trailing_loop_head (fuel : nat) (s : string) :
  head_ok s → head_ok (strip_trailing_loop fuel s).
Proof.
  revert s; induction fuel as [|fuel IH]; intros s H; simpl; [exact H|].
  destruct (Py.last_char s) as [c|] eqn:El; [|exact H].
  destruct (Py.char_in c punct) eqn:E; [|exact H].
  apply IH. destruct s as [|x s]; [exact I|].
  destruct s as [|y s]; [exact I|]. exact H.
Qed.

Lemma normalize_lowered (t : string) : lowered (_normalize_token t).
Proof.
  unfold _normalize_token, strip_trailing.
  apply strip_trailing_loop_lowered, strip_leading_lowered, lower_idem.
Qed.

Lemma normalize_head_ok (t : string) : head_ok (_normalize_token t).
Proof.
  unfold _normalize_token, strip_trailing.
  apply strip_trailing_loop_head, strip_leading_exit.
Qed.

Lemma normalize_last_ok (t : string) : last_ok (_normalize_token t).
Proof.
  unfold _normalize_token, strip_trailing.
  now apply strip_trailing_loop_exit.
Qed.

(** A token in lower case whose two ends are no punctuation is left alone. *)
Lemma normalize_fix (t : string) :
  lowered t → head_ok t → last_ok t → _normalize_token t = t.
Proof.
  intros Hl Hh Ht. unfold _normalize_token, strip_trailing.
  rewrite Hl, (strip_leading_fix _ Hh). now apply strip_trailing_loop_fix.
Qed.

Lemma normalize_idem (t : string) :
  _normalize_token (_normalize_token t) = _normalize_token t.
Proof.
  apply normalize_fix;
    [apply normalize_lowered | apply normalize_head_ok | apply normalize_last_ok].
Qed.

(** ** The filtering loop *)

Section Loop.

Variable stopwords : gset string.
Variables keep_negations keep_pronouns : bool.

Local Abbreviation loop := (filter_loop stopwords keep_negations keep_pronouns).
Local Abbreviation keep := (retained stopwords keep_negations keep_pronouns).

(** The loop only appends to the list it is given. *)
Lemma filter_loop_acc (raw cleaned : list string) :
  loop raw cleaned = cleaned ++ loop raw [].
Proof.
  revert cleaned.
  induction raw as [|tok rest IH]; intros cleaned; simpl.
  - now rewrite app_nil_r.
  - repeat match goal with |- context [if ?b then _ else _] => destruct b end;
      try apply IH;
      rewrite IH, (IH [_]), app_assoc; reflexivity.
Qed.

(** The loop is the filter of the normalized tokens by [retained]. *)
Lemma filter_loop_filter (raw : list string) :
  loop raw [] = List.filter keep (map _normalize_token raw).
Proof.
  induction raw as [|tok rest IH]; [reflexivity|].
  simpl. unfold retained.
  repeat match goal with |- context [if ?b then _ else _] => destruct b end;
    try exact IH;
    rewrite filter_loop_acc; simpl; now rewrite IH.
Qed.

End Loop.

Lemma remove_stopwords_tokens (x : text_or_tokens) (sw : option (gset string))
    (kn kp : bool) (return_type : string) :
  return_type ≠ "text" →
  remove_stopwords x sw kn kp return_type =
  RList (List.filter (retained (active_stopwords sw) kn kp)
           (map _normalize_token (raw_tokens_of x))).
Proof.
  intros Hrt. unfold remove_stopwords.
  destruct (String.eqb_spec return_type "text") as [E|_]; [contradiction|].
  now rewrite filter_loop_filter.
Qed.

Lemma remove_stopwords_text (x : text_or_tokens) (sw : option (gset string))
    (kn kp : bool) :
  remove_stopwords x sw kn kp "text" =
  RStr (Py.join " " (List.filter (retained (active_stopwords sw) kn kp)
                       (map _normalize_token (raw_tokens_of x)))).
Proof. unfold remove_stopwords. simpl. now rewrite filter_loop_filter. Qed.

(** ** Lists: filtering keeps order and multiplicity *)

Section FilterFacts.

Context {A : Type} (p : A → bool).

Lemma filter_sublist (l : list A) : sublist (List.filter p l) l.
Proof.
  induction l as [|a l IH]; simpl; [constructor|].
  destruct (p a); now constructor.
Qed.

Lemma filter_count_occ (dec : ∀ a b : A, {a = b} + {a ≠ b}) (l : list A) (w : A) :
  p w = true → count_occ dec (List.filter p l) w = count_occ dec l w.
Proof.
  intros Hw. induction l as [|a l IH]; simpl; [reflexivity|].
  destruct (p a) eqn:Ea; simpl; destruct (dec a w) as [->|Hne]; auto.
  congruence.
Qed.

Lemma filter_all (l : list A) :
  (∀ a, In a l → p a = true) → List.filter p l = l.
Proof.
  induction l as [|a l IH]; simpl; intros H; [reflexivity|].
  rewrite (H a (or_introl eq_refl)), IH; auto.
Qed.

End FilterFacts.

Lemma mem_spec (w : string) (s : gset string) : w ∈ s ↔ mem w s = true.
Proof. unfold mem. symmetry. apply bool_decide_eq_true. Qed.

(** A retained token is not empty. *)
Lemma retained_nonempty (sw : gset string) (kn kp : bool) (w : string) :
  retained sw kn kp w = true → w ≠ "".
Proof. unfold retained. intros H ->. discriminate. Qed.

Lemma retained_negation (sw : gset string) (kp : bool) (w : string) :
  w ≠ "" → w ∈ NEGATIONS → retained sw true kp w = true.
Proof.
  intros Hne Hin%mem_spec. unfold retained.
  destruct (String.eqb_spec w "") as [E|_]; [contradiction|].
  now rewrite Hin.
Qed.

Lemma retained_pronoun (sw : gset string) (kn : bool) (w : string) :
  w ≠ "" → w ∈ PRONOUNS → retained sw kn true w = true.
Proof.
  intros Hne Hin%mem_spec. unfold retained.
  destruct (String.eqb_spec w "") as [E|_]; [contradiction|].
  rewrite Hin. now destruct (kn && _).
Qed.

Lemma NEGATIONS_nonempty : "" ∉ NEGATIONS.
Proof. intros H%mem_spec. vm_compute in H. discriminate. Qed.

Lemma PRONOUNS_nonempty : "" ∉ PRONOUNS.
Proof. intros H%mem_spec. vm_compute in H. discriminate. Qed.

(** A token the loop body retains is in the output as often as its
    normalized form is among the normalized input tokens. *)
Lemma retained_in_output (x : text_or_tokens) (sw : option (gset string))
    (kn kp : bool) (tok : string) :
  In tok (raw_tokens_of x) →
  retained (active_stopwords sw) kn kp (_normalize_token tok) = true →
  ∃ out, remove_stopwords x sw kn kp "tokens" = RList out
         ∧ In (_normalize_token tok) out
         ∧ count_occ string_dec out (_normalize_token tok) =
           count_occ string_dec (map _normalize_token (raw_tokens_of x))
             (_normalize_token tok).
Proof.
  intros Hin Hk. eexists. split; [now apply remove_stopwords_tokens|]. split.
  - apply filter_In. split; [now apply in_map | exact Hk].
  - now apply filter_count_occ.
Qed.

(** The lower-cased token is its normalized form between a run of leading and
    a run of trailing punctuation characters. *)
Lemma normalize_split (t : string) :
  ∃ pre suf, Py.lower t = pre +:+ _normalize_token t +:+ suf
             ∧ all_punct pre = true ∧ all_punct suf = true.
Proof.
  destruct (strip_leading_split (Py.lower t)) as (pre & Hpre & Hp).
  destruct (strip_trailing_loop_split
              (String.length (strip_leading (Py.lower t)))
              (strip_leading (Py.lower t))) as (suf & Hsuf & Hs).
  exists pre, suf. unfold _normalize_token, strip_trailing.
  now rewrite <- Hsuf.
Qed.

(** ** Properties of [remove_stopwords] and [_normalize_token] *)

(** C1: on the test sentence, with the default stopword set,
    [keep_negations=True], [keep_pronouns=False] and [return_type="tokens"],
    [remove_stopwords] returns exactly
    ["i","not","happy","battery","life","not","terrible"]. *)
Theorem C1_default_scenario :
  remove_stopwords
    (Text "I am not happy with the battery life, but it is not terrible.")
    None true false "tokens"
  = RList ["i"; "not"; "happy"; "battery"; "life"; "not"; "terrible"].
Proof. vm_compute. reflexivity. Qed.

(** C2: with [keep_negations=True], a token whose normalized form is in
    [NEGATIONS] is retained, whatever the stopword set and [keep_pronouns]:
    its normalized form is in the output, as often as among the normalized
    input tokens.  In particular a token that normalizes to "not" is in the
    output under the custom stopword set {"not"}. *)
Theorem C2_negation_priority (x : text_or_tokens) (sw : option (gset string))
    (kp : bool) (tok : string) :
  In tok (raw_tokens_of x) →
  _normalize_token tok ∈ NEGATIONS →
  (∃ out, remove_stopwords x sw true kp "tokens" = RList out
          ∧ In (_normalize_token tok) out
          ∧ count_occ string_dec out (_normalize_token tok) =
            count_occ string_dec (map _normalize_token (raw_tokens_of x))
              (_normalize_token tok))
  ∧ (_normalize_token tok = "not" →
     ∃ out, remove_stopwords x (Some {["not"]}) true kp "tokens" = RList out
            ∧ In "not" out).
Proof.
  intros Hin Hneg.
  assert (Hne : _normalize_token tok ≠ "")
    by (intros E; rewrite E in Hneg; exact (NEGATIONS_nonempty Hneg)).
  split.
  - apply retained_in_output; [exact Hin|].
    now apply retained_negation.
  - intros Hnot.
    destruct (retained_in_output x (Some {["not"]}) true kp tok Hin)
      as (out & Hout & Hmem & _); [now apply retained_negation|].
    exists out. split; [exact Hout|]. rewrite <- Hnot. exact Hmem.
Qed.

Lemma C2_negation_priority_witness :
  In "Not!" (raw_tokens_of (Tokens ["the"; "Not!"]))
  ∧ _normalize_token "Not!" ∈ NEGATIONS
  ∧ ∃ out, remove_stopwords (Tokens ["the"; "Not!"]) (Some {["not"]})
             true false "tokens" = RList out
           ∧ In "not" out.
Proof.
  assert (H1 : In "Not!" (raw_tokens_of (Tokens ["the"; "Not!"])))
    by (simpl; auto).
  assert (H2 : _normalize_token "Not!" ∈ NEGATIONS)
    by (apply mem_spec; vm_compute; reflexivity).
  split; [exact H1|]. split; [exact H2|].
  apply (proj2 (C2_negation_priority (Tokens ["the"; "Not!"])
                  (Some {["not"]}) false "Not!" H1 H2)).
  vm_compute. reflexivity.
Defined.

(** C3: with [keep_pronouns=True], a token whose normalized form is in
    [PRONOUNS] and in the active stopword set is retained, whatever
    [keep_negations]: its normalized form is in the output, as often as
    among the normalized input tokens. *)
Theorem C3_pronoun_priority (x : text_or_tokens) (sw : option (gset string))
    (kn : bool) (tok : string) :
  In tok (raw_tokens_of x) →
  _normalize_token tok ∈ PRONOUNS →
  _normalize_token tok ∈ active_stopwords sw →
  ∃ out, remove_stopwords x sw kn true "tokens" = RList out
         ∧ In (_normalize_token tok) out
         ∧ count_occ string_dec out (_normalize_token tok) =
           count_occ string_dec (map _normalize_token (raw_tokens_of x))
             (_normalize_token tok).
Proof.
  intros Hin Hpro _.
  assert (Hne : _normalize_token tok ≠ "")
    by (intros E; rewrite E in Hpro; exact (PRONOUNS_nonempty Hpro)).
  apply retained_in_output; [exact Hin|].
  now apply retained_pronoun.
Qed.

Lemma C3_pronoun_priority_witness :
  In "They," (raw_tokens_of (Text "They, the users"))
  ∧ _normalize_token "They," ∈ PRONOUNS
  ∧ _normalize_token "They," ∈ active_stopwords (Some {["they"; "the"]})
  ∧ ∃ out, remove_stopwords (Text "They, the users") (Some {["they"; "the"]})
             false true "tokens" = RList out
           ∧ In (_normalize_token "They,") out
           ∧ count_occ string_dec out (_normalize_token "They,") =
             count_occ string_dec
               (map _normalize_token (raw_tokens_of (Text "They, the users")))
               (_normalize_token "They,").
Proof.
  assert (H1 : In "They," (raw_tokens_of (Text "They, the users")))
    by (vm_compute; auto).
  assert (H2 : _normalize_token "They," ∈ PRONOUNS)
    by (apply mem_spec; vm_compute; reflexivity).
  assert (H3 : _normalize_token "They," ∈ active_stopwords (Some {["they"; "the"]}))
    by (apply mem_spec; vm_compute; reflexivity).
  split; [exact H1|]. split; [exact H2|]. split; [exact H3|].
  exact (C3_pronoun_priority (Text "They, the users") (Some {["they"; "the"]})
           false "They," H1 H2 H3).
Defined.

(** C4: on the test sentence with [keep_negations=False] and the default
    stopword set, "not" is still in the output: it is a negation word, no
    member of [DEFAULT_STOPWORDS], and it is the stopword check that lets it
    through, since adding "not" to the stopword set removes it. *)
Theorem C4_not_survives_stopword_check :
  remove_stopwords (Text test_text) None true false "tokens"
  = remove_stopwords (Text test_text) None false false "tokens"
  ∧ remove_stopwords (Text test_text) None false false "tokens"
    = RList ["i"; "not"; "happy"; "battery"; "life"; "not"; "terrible"]
  ∧ In "not" ["i"; "not"; "happy"; "battery"; "life"; "not"; "terrible"]
  ∧ "not" ∈ NEGATIONS
  ∧ ("not" ∉ DEFAULT_STOPWORDS)
  ∧ retained DEFAULT_STOPWORDS false false "not" = true
  ∧ remove_stopwords (Text test_text) (Some (DEFAULT_STOPWORDS ∪ {["not"]}))
      false false "tokens"
    = RList ["i"; "happy"; "battery"; "life"; "terrible"].
Proof.
  split; [vm_compute; reflexivity|].
  split; [vm_compute; reflexivity|].
  split; [right; left; reflexivity|].
  split; [apply mem_spec; vm_compute; reflexivity|].
  split; [intros H%mem_spec; vm_compute in H; discriminate|].
  split; vm_compute; reflexivity.
Qed.

(** C5: for every input and configuration, the result for
    [return_type="text"] is the single-space join of the result for
    [return_type="tokens"]. *)
Theorem C5_text_is_join (x : text_or_tokens) (sw : option (gset string))
    (kn kp : bool) :
  ∃ out, remove_stopwords x sw kn kp "tokens" = RList out
         ∧ remove_stopwords x sw kn kp "text" = RStr (Py.join " " out).
Proof.
  eexists. split; [reflexivity|]. reflexivity.
Qed.

(** C6: the output tokens are an order-preserving subsequence of the
    normalized input tokens: a sublist of them, no longer than the input,
    every word that is kept is kept with all its occurrences, and the empty
    string is never among them. *)
Theorem C6_output_subsequence (x : text_or_tokens) (sw : option (gset string))
    (kn kp : bool) :
  ∃ out, remove_stopwords x sw kn kp "tokens" = RList out
         ∧ sublist out (map _normalize_token (raw_tokens_of x))
         ∧ (length out ≤ length (raw_tokens_of x))%nat
         ∧ (∀ w, In w out →
              count_occ string_dec out w =
              count_occ string_dec (map _normalize_token (raw_tokens_of x)) w)
         ∧ ¬ In "" out.
Proof.
  eexists. split; [now apply remove_stopwords_tokens|].
  set (p := retained (active_stopwords sw) kn kp).
  set (norms := map _normalize_token (raw_tokens_of x)).
  assert (Hsub : sublist (List.filter p norms) norms) by apply filter_sublist.
  split; [exact Hsub|]. split; [|split].
  - apply sublist_length in Hsub. subst norms.
    now rewrite length_map in Hsub.
  - intros w [_ Hw]%filter_In. now apply filter_count_occ.
  - intros [_ Hw]%filter_In. now apply retained_nonempty in Hw.
Qed.

(** C7: [_normalize_token] is idempotent. *)
Theorem C7_normalize_idempotent (t : string) :
  _normalize_token (_normalize_token t) = _normalize_token t.
Proof. apply normalize_idem. Qed.

(** C8: normalization strips punctuation at the two ends only: the
    lower-cased token is a run of punctuation, the normalized token, a run of
    punctuation, and the normalized token neither starts nor ends with a
    punctuation character.  "life," normalizes to "life", "don't" to itself,
    which is a negation word, so that under the default configuration a
    token "don't" of the input is in the output. *)
Theorem C8_punctuation_stripping :
  _normalize_token "life," = "life"
  ∧ _normalize_token "don't" = "don't"
  ∧ "don't" ∈ NEGATIONS
  ∧ (∀ t, ∃ pre suf, Py.lower t = pre +:+ _normalize_token t +:+ suf
                     ∧ all_punct pre = true ∧ all_punct suf = true
                     ∧ head_ok (_normalize_token t)
                     ∧ last_ok (_normalize_token t))
  ∧ (∀ x, In "don't" (raw_tokens_of x) →
          ∃ out, remove_stopwords x None true false "tokens" = RList out
                 ∧ In "don't" out).
Proof.
  assert (Hn : _normalize_token "don't" = "don't") by (vm_compute; reflexivity).
  assert (Hneg : "don't" ∈ NEGATIONS) by (apply mem_spec; vm_compute; reflexivity).
  split; [vm_compute; reflexivity|].
  split; [exact Hn|]. split; [exact Hneg|]. split.
  - intros t. destruct (normalize_split t) as (pre & suf & H & Hp & Hs).
    exists pre, suf. repeat split; auto using normalize_head_ok, normalize_last_ok.
  - intros x Hin.
    destruct (retained_in_output x None true false "don't" Hin)
      as (out & Hout & Hmem & _).
    + rewrite Hn. apply retained_negation; [discriminate | exact Hneg].
    + exists out. split; [exact Hout|]. now rewrite Hn in Hmem.
Qed.

Lemma C8_punctuation_stripping_witness :
  In "don't" (raw_tokens_of (Text "I don't like it"))
  ∧ ∃ out, remove_stopwords (Text "I don't like it") None true false "tokens"
           = RList out
           ∧ In "don't" out.
Proof.
  assert (H : In "don't" (raw_tokens_of (Text "I don't like it")))
    by (vm_compute; auto).
  split; [exact H|].
  exact (proj2 (proj2 (proj2 (proj2 C8_punctuation_stripping))) _ H).
Defined.

(** C9: for every [return_type] other than "text", [remove_stopwords]
    returns the list of tokens, the value it returns for "tokens". *)
Theorem C9_return_type_fallthrough (x : text_or_tokens)
    (sw : option (gset string)) (kn kp : bool) (return_type : string) :
  return_type ≠ "text" →
  remove_stopwords x sw kn kp return_type = remove_stopwords x sw kn kp "tokens"
  ∧ ∃ out, remove_stopwords x sw kn kp return_type = RList out.
Proof.
  intros Hrt. rewrite (remove_stopwords_tokens x sw kn kp return_type Hrt).
  split; [|eexists; reflexivity].
  symmetry. now apply remove_stopwords_tokens.
Qed.

Lemma C9_return_type_fallthrough_witness :
  "TEXT" ≠ "text" ∧ "list" ≠ "text"
  ∧ remove_stopwords (Text test_text) None true false "TEXT"
    = remove_stopwords (Text test_text) None true false "tokens"
  ∧ remove_stopwords (Text test_text) None true false "list"
    = remove_stopwords (Text test_text) None true false "tokens".
Proof.
  assert (H1 : "TEXT" ≠ "text") by discriminate.
  assert (H2 : "list" ≠ "text") by discriminate.
  split; [exact H1|]. split; [exact H2|]. split.
  - exact (proj1 (C9_return_type_fallthrough (Text test_text) None true false
                    "TEXT" H1)).
  - exact (proj1 (C9_return_type_fallthrough (Text test_text) None true false
                    "list" H2)).
Defined.

(** C10: [remove_stopwords] leaves its own list of tokens unchanged under
    the same configuration: every token of the output is left alone by
    [_normalize_token] and is retained again. *)
Theorem C10_idempotent_on_output (x : text_or_tokens)
    (sw : option (gset string)) (kn kp : bool) :
  ∃ out, remove_stopwords x sw kn kp "tokens" = RList out
         ∧ remove_stopwords (Tokens out) sw kn kp "tokens" = RList out
         ∧ ∀ w, In w out →
                _normalize_token w = w
                ∧ retained (active_stopwords sw) kn kp w = true.
Proof.
  eexists. split; [now apply remove_stopwords_tokens|].
  set (out := List.filter _ _).
  assert (Hout : ∀ w, In w out →
            _normalize_token w = w
            ∧ retained (active_stopwords sw) kn kp w = true).
  { intros w [Hw Hk]%filter_In. split; [|exact Hk].
    apply in_map_iff in Hw as (tok & <- & _). apply normalize_idem. }
  split; [|exact Hout].
  rewrite remove_stopwords_tokens by discriminate. f_equal. simpl.
  rewrite (map_ext_in _ id), map_id.
  - apply filter_all. intros w Hw. now apply Hout.
  - intros w Hw. now apply Hout.
Qed.

(** ** Further properties: tokenization *)

Section SpaceFacts.

Local Ltac all_chars c :=
  destruct c as [[] [] [] [] [] [] [] []]; vm_compute; try reflexivity; try discriminate.

(** Lower-casing maps white space to white space and nothing else to it. *)
Lemma isspace_lower_char (c : ascii) :
  Py.isspace (Py.lower_char c) = Py.isspace c.
Proof. all_chars c. Qed.

(** Lower-casing maps punctuation to punctuation and nothing else to it. *)
Lemma punct_lower_char (c : ascii) :
  Py.char_in (Py.lower_char c) punct = Py.char_in c punct.
Proof. all_chars c. Qed.

Lemma lower_char_punct (c : ascii) :
  Py.char_in c punct = true → Py.lower_char c = c.
Proof. all_chars c. Qed.

End SpaceFacts.

Lemma eqb_append_char (cur : string) (c : ascii) :
  String.eqb (cur +:+ String c "") "" = false.
Proof. destruct cur; reflexivity. Qed.

Lemma no_space_app (a b : string) :
  no_space (a +:+ b) = no_space a && no_space b.
Proof.
  induction a as [|x a IH]; [reflexivity|].
  rewrite append_cons. simpl. now rewrite IH, andb_assoc.
Qed.

Lemma is_word_nonempty (w : string) : is_word w = true → w ≠ "".
Proof. intros H ->. discriminate. Qed.

(** White space alone closes the word being read and opens no other. *)
Lemma split_from_all_space (cur s : string) :
  all_space s = true →
  Py.split_from cur s = if String.eqb cur "" then [] else [cur].
Proof.
  revert cur. induction s as [|c s IH]; intros cur; simpl; [reflexivity|].
  intros [Hc Hs]%andb_prop. rewrite Hc, (IH "" Hs). simpl.
  now destruct (String.eqb cur "").
Qed.

(** Every word [split_from] produces is a word, when the one being read is
    free of white space. *)
Lemma split_from_words (cur s : string) :
  no_space cur = true → Forall (λ w, is_word w = true) (Py.split_from cur s).
Proof.
  revert cur. induction s as [|c s IH]; intros cur Hcur; simpl.
  - destruct (String.eqb cur "") eqn:E; constructor; [|constructor].
    unfold is_word. now rewrite E, Hcur.
  - destruct (Py.isspace c) eqn:Ec.
    + destruct (String.eqb cur "") eqn:E; [now apply IH|].
      constructor; [|now apply IH]. unfold is_word. now rewrite E, Hcur.
    + apply IH. rewrite no_space_app, Hcur. simpl. now rewrite Ec.
Qed.

(** Reading a run of characters that are no white space extends the word
    being read. *)
Lemma split_from_word (cur w rest : string) :
  no_space w = true →
  Py.split_from cur (w +:+ rest) = Py.split_from (cur +:+ w) rest.
Proof.
  revert cur. induction w as [|c w IH]; intros cur Hw.
  - now rewrite append_empty_l, append_empty_r.
  - simpl in Hw. apply andb_prop in Hw as [Hc Hw].
    rewrite append_cons. simpl.
    destruct (Py.isspace c); [discriminate|].
    rewrite (IH _ Hw), append_assoc. reflexivity.
Qed.

(** A white-space character between two texts separates their words. *)
Lemma split_from_sep (cur s1 s2 : string) (c : ascii) :
  Py.isspace c = true →
  Py.split_from cur (s1 +:+ String c s2)
  = Py.split_from cur s1 ++ Py.split_from "" s2.
Proof.
  intros Hc. revert cur. induction s1 as [|d s1 IH]; intros cur.
  - rewrite append_empty_l. simpl. rewrite Hc.
    now destruct (String.eqb cur "").
  - rewrite append_cons. simpl. destruct (Py.isspace d).
    + destruct (String.eqb cur ""); now rewrite IH.
    + apply IH.
Qed.

(** Joining words by single spaces and splitting again gives the words. *)
Lemma split_join (l : list string) :
  Forall (λ w, is_word w = true) l → Py.split (Py.join " " l) = l.
Proof.
  unfold Py.split. induction 1 as [|x l Hx Hl IH]; [reflexivity|].
  apply andb_prop in Hx as [Hne Hns].
  destruct l as [|y l].
  - simpl. rewrite <- (append_empty_r x) at 1.
    rewrite (split_from_word "" x "" Hns), append_empty_l. simpl.
    now destruct (String.eqb x "").
  - change (Py.join " " (x :: y :: l))
      with (x +:+ String " " (Py.join " " (y :: l))).
    rewrite (split_from_word "" x _ Hns), append_empty_l.
    change (Py.split_from x (String " " (Py.join " " (y :: l))))
      with (if String.eqb x "" then Py.split_from "" (Py.join " " (y :: l))
            else x :: Py.split_from "" (Py.join " " (y :: l))).
    destruct (String.eqb x ""); [discriminate|]. now rewrite IH.
Qed.

(** ** Further properties: normalization *)

Lemma lower_app (a b : string) :
  Py.lower (a +:+ b) = Py.lower a +:+ Py.lower b.
Proof.
  induction a as [|x a IH]; [reflexivity|].
  rewrite append_cons. simpl. now rewrite IH.
Qed.



Lemma all_punct_lower (s : string) : all_punct (Py.lower s) = all_punct s.
Proof.
  induction s as [|x s IH]; simpl; [reflexivity|].
  now rewrite punct_lower_char, IH.
Qed.

Lemma lower_all_punct (s : string) : all_punct s = true → Py.lower s = s.
Proof.
  induction s as [|x s IH]; simpl; [reflexivity|].
  intros [Hx Hs]%andb_prop. now rewrite (lower_char_punct x Hx), IH.
Qed.

Lemma no_space_lower (s : string) : no_space (Py.lower s) = no_space s.
Proof.
  induction s as [|x s IH]; simpl; [reflexivity|].
  now rewrite isspace_lower_char, IH.
Qed.

Lemma no_space_strip_leading (s : string) :
  no_space s = true → no_space (strip_leading s) = true.
Proof.
  induction s as [|x s IH]; simpl; [trivial|].
  intros H. destruct (Py.char_in x punct); [|exact H].
  apply IH. now apply andb_prop in H.
Qed.

Lemma no_space_drop_last (s : string) :
  no_space s = true → no_space (Py.drop_last s) = true.
Proof.
  induction s as [|x s IH]; [trivial|].
  destruct s as [|y s]; [reflexivity|].
  intros [Hx Hs]%andb_prop.
  change (negb (Py.isspace x) && no_space (Py.drop_last (String y s)) = true).
  now rewrite Hx, IH.
Qed.

Lemma no_space_strip_trailing_loop (fuel : nat) (s : string) :
  no_space s = true → no_space (strip_trailing_loop fuel s) = true.
Proof.
  revert s; induction fuel as [|fuel IH]; intros s H; simpl; [exact H|].
  destruct (Py.last_char s) as [c|]; [|exact H].
  destruct (Py.char_in c punct); [|exact H].
  apply IH. now apply no_space_drop_last.
Qed.

Lemma normalize_no_space (t : string) :
  no_space t = true → no_space (_normalize_token t) = true.
Proof.
  intros H. unfold _normalize_token, strip_trailing.
  apply no_space_strip_trailing_loop, no_space_strip_leading.
  now rewrite no_space_lower.
Qed.

(** One round of the second loop, on [rstrip_punct]. *)
Lemma rstrip_punct_step (s : string) :
  rstrip_punct s =
  match Py.last_char s with
  | Some c => if Py.char_in c punct then rstrip_punct (Py.drop_last s) else s
  | None => s
  end.
Proof.
  induction s as [|x s IH]; [reflexivity|].
  destruct s as [|y s].
  - simpl. now destruct (Py.char_in x punct).
  - change (Py.last_char (String x (String y s)))
      with (Py.last_char (String y s)).
    change (Py.drop_last (String x (String y s)))
      with (String x (Py.drop_last (String y s))).
    change (rstrip_punct (String x (String y s)))
      with (match rstrip_punct (String y s) with
            | EmptyString =>
                if Py.char_in x punct then EmptyString else String x EmptyString
            | r => String x r
            end).
    rewrite IH. destruct (Py.last_char (String y s)) as [c|]; [|reflexivity].
    destruct (Py.char_in c punct); reflexivity.
Qed.

(** The second loop computes [rstrip_punct] once its fuel covers the token. *)
Lemma strip_trailing_loop_rstrip (fuel : nat) (s : string) :
  (String.length s ≤ fuel)%nat → strip_trailing_loop fuel s = rstrip_punct s.
Proof.
  revert s; induction fuel as [|fuel IH]; intros s Hlen.
  - destruct s; [reflexivity | simpl in Hlen; lia].
  - simpl. rewrite (rstrip_punct_step s).
    destruct (Py.last_char s) as [c|]; [|reflexivity].
    destruct (Py.char_in c punct); [|reflexivity].
    apply IH. rewrite length_drop_last. lia.
Qed.

Lemma strip_trailing_rstrip (s : string) : strip_trailing s = rstrip_punct s.
Proof. now apply strip_trailing_loop_rstrip. Qed.

Lemma rstrip_punct_all_punct (q : string) :
  all_punct q = true → rstrip_punct q = "".
Proof.
  induction q as [|x q IH]; simpl; [reflexivity|].
  intros [Hx Hq]%andb_prop. now rewrite (IH Hq), Hx.
Qed.

Lemma rstrip_punct_app (r q : string) :
  all_punct q = true → rstrip_punct (r +:+ q) = rstrip_punct r.
Proof.
  intros Hq. induction r as [|x r IH].
  - rewrite append_empty_l. now apply rstrip_punct_all_punct.
  - rewrite append_cons. simpl. now rewrite IH.
Qed.

Lemma strip_leading_all_punct (s : string) :
  all_punct s = true → strip_leading s = "".
Proof.
  induction s as [|x s IH]; simpl; [reflexivity|].
  intros [Hx Hs]%andb_prop. rewrite Hx. now apply IH.
Qed.

Lemma strip_leading_punct_app (p s : string) :
  all_punct p = true → strip_leading (p +:+ s) = strip_leading s.
Proof.
  induction p as [|x p IH]; [reflexivity|].
  rewrite append_cons. simpl. intros [Hx Hp]%andb_prop. rewrite Hx. now apply IH.
Qed.

Lemma strip_leading_app (s q : string) :
  strip_leading (s +:+ q) =
  if all_punct s then strip_leading q else strip_leading s +:+ q.
Proof.
  induction s as [|x s IH]; [reflexivity|].
  rewrite append_cons. simpl.
  destruct (Py.char_in x punct); [exact IH | reflexivity].
Qed.

Lemma normalize_rstrip (t : string) :
  _normalize_token t = rstrip_punct (strip_leading (Py.lower t)).
Proof. unfold _normalize_token. apply strip_trailing_rstrip. Qed.

(** ** Further properties: the filter *)

(** What [remove_stopwords] returns, for every [return_type]. *)
Lemma remove_stopwords_filter (x : text_or_tokens) (sw : option (gset string))
    (kn kp : bool) (return_type : string) :
  remove_stopwords x sw kn kp return_type =
  (if String.eqb return_type "text"
   then RStr (Py.join " " (List.filter (retained (active_stopwords sw) kn kp)
                             (map _normalize_token (raw_tokens_of x))))
   else RList (List.filter (retained (active_stopwords sw) kn kp)
                 (map _normalize_token (raw_tokens_of x)))).
Proof. unfold remove_stopwords. now rewrite filter_loop_filter. Qed.

(** The loop body's decision, as a proposition. *)
Lemma retained_spec (sw : gset string) (kn kp : bool) (w : string) :
  retained sw kn kp w = true ↔
  w ≠ "" ∧ ((kn = true ∧ w ∈ NEGATIONS) ∨ (kp = true ∧ w ∈ PRONOUNS) ∨ w ∉ sw).
Proof.
  unfold retained. rewrite !mem_spec.
  destruct (String.eqb_spec w "") as [E|E]; [intuition discriminate|].
  destruct kn, kp, (mem w NEGATIONS), (mem w PRONOUNS), (mem w sw); simpl;
    intuition (try discriminate; try congruence).
Qed.

Section FilterOrder.

Context {A : Type} (p q : A → bool).

(** A weaker test keeps a longer list. *)
Lemma filter_sublist_mono (l : list A) :
  (∀ a, p a = true → q a = true) → sublist (List.filter p l) (List.filter q l).
Proof.
  intros Hpq. induction l as [|a l IH]; simpl; [constructor|].
  destruct (p a) eqn:Ep.
  - rewrite (Hpq a Ep). now constructor.
  - destruct (q a); [now constructor | exact IH].
Qed.

End FilterOrder.

(** Tokens free of white space stay so in the output. *)
Lemma output_words (l : list string) (sw : gset string) (kn kp : bool) :
  Forall (λ t, no_space t = true) l →
  Forall (λ w, is_word w = true)
    (List.filter (retained sw kn kp) (map _normalize_token l)).
Proof.
  intros Hl. apply List.Forall_forall. intros w [Hw Hk]%filter_In.
  apply in_map_iff in Hw as (tok & <- & Htok).
  rewrite List.Forall_forall in Hl. unfold is_word.
  rewrite (normalize_no_space tok (Hl tok Htok)), andb_true_r.
  apply retained_nonempty in Hk.
  now destruct (String.eqb_spec (_normalize_token tok) "").
Qed.

Lemma split_words (s : string) : Forall (λ w, is_word w = true) (Py.split s).
Proof. now apply split_from_words. Qed.

Lemma split_no_space (s : string) : Forall (λ w, no_space w = true) (Py.split s).
Proof.
  eapply List.Forall_impl; [|apply split_words].
  intros w Hw. now apply andb_prop in Hw.
Qed.

(** Changing a flag changes nothing when the set it protects shares no word
    with the stopword set. *)
Lemma flags_irrelevant (x : text_or_tokens) (sw : option (gset string))
    (kn kp kn' kp' : bool) (return_type : string) :
  (kn ≠ kn' → active_stopwords sw ## NEGATIONS) →
  (kp ≠ kp' → active_stopwords sw ## PRONOUNS) →
  remove_stopwords x sw kn kp return_type
  = remove_stopwords x sw kn' kp' return_type.
Proof.
  intros Hn Hp. rewrite !remove_stopwords_filter.
  rewrite (filter_ext (retained (active_stopwords sw) kn kp)
             (retained (active_stopwords sw) kn' kp')); [reflexivity|].
  intros w.
  assert (Hneg : kn ≠ kn' → mem w NEGATIONS = true →
                 mem w (active_stopwords sw) = false).
  { intros Hk H1%mem_spec. destruct (mem w (active_stopwords sw)) eqn:E; [|reflexivity].
    apply mem_spec in E. destruct (proj1 (elem_of_disjoint _ _) (Hn Hk) w E H1). }
  assert (Hpro : kp ≠ kp' → mem w PRONOUNS = true →
                 mem w (active_stopwords sw) = false).
  { intros Hk H1%mem_spec. destruct (mem w (active_stopwords sw)) eqn:E; [|reflexivity].
    apply mem_spec in E. destruct (proj1 (elem_of_disjoint _ _) (Hp Hk) w E H1). }
  unfold retained. destruct (String.eqb w ""); [reflexivity|].
  revert Hneg Hpro.
  generalize (mem w (active_stopwords sw)), (mem w NEGATIONS), (mem w PRONOUNS).
  intros b n p Hneg Hpro.
  destruct n, p, kn, kn', kp, kp'; simpl; try reflexivity;
    first [ rewrite Hneg by (discriminate || reflexivity)
          | rewrite Hpro by (discriminate || reflexivity) ];
    reflexivity.
Qed.

Lemma default_disjoint_negations : DEFAULT_STOPWORDS ## NEGATIONS.
Proof. refine (bool_decide_unpack _ _). vm_compute. exact I. Qed.

Lemma default_disjoint_pronouns : DEFAULT_STOPWORDS ## PRONOUNS.
Proof. refine (bool_decide_unpack _ _). vm_compute. exact I. Qed.

Lemma negations_disjoint_pronouns : NEGATIONS ## PRONOUNS.
Proof. refine (bool_decide_unpack _ _). vm_compute. exact I. Qed.

Lemma word_sets_canonical : forallb canonical word_set_elements = true.
Proof. vm_compute. reflexivity. Qed.

(** ** Further properties of [remove_stopwords] and [_normalize_token] *)

Lemma normalize_all_punct (t : string) :
  all_punct t = true → _normalize_token t = "".
Proof.
  intros Ht. rewrite normalize_rstrip.
  rewrite strip_leading_all_punct by now rewrite all_punct_lower.
  reflexivity.
Qed.

(** X1: a text of white space only (the empty text among them) gives the
    empty list of tokens and the empty string, for every configuration. *)
Theorem X1_blank_text (s : string) (sw : option (gset string)) (kn kp : bool) :
  all_space s = true →
  remove_stopwords (Text s) sw kn kp "tokens" = RList []
  ∧ remove_stopwords (Text s) sw kn kp "text" = RStr "".
Proof.
  intros Hs. unfold remove_stopwords, raw_tokens_of, Py.split.
  rewrite (split_from_all_space "" s Hs). split; reflexivity.
Qed.

Lemma X1_blank_text_witness :
  all_space (String (ascii_of_nat 9) "  ") = true
  ∧ remove_stopwords (Text (String (ascii_of_nat 9) "  ")) None true false "tokens"
    = RList []
  ∧ remove_stopwords (Text (String (ascii_of_nat 9) "  ")) None true false "text"
    = RStr "".
Proof.
  split; [reflexivity|].
  apply (X1_blank_text (String (ascii_of_nat 9) "  ") None true false).
  reflexivity.
Defined.


(** X3: the normalized form does not depend on the case of the token nor on
    punctuation characters put before and after it. *)
Theorem X3_normalize_ignores_case_and_wrapping (p q t1 t2 : string) :
  all_punct p = true → all_punct q = true → Py.lower t1 = Py.lower t2 →
  _normalize_token (p +:+ t1 +:+ q) = _normalize_token t2.
Proof.
  intros Hp Hq Hl. rewrite !normalize_rstrip, !lower_app, Hl.
  rewrite (lower_all_punct p Hp), (lower_all_punct q Hq).
  rewrite (strip_leading_punct_app p _ Hp), strip_leading_app.
  destruct (all_punct (Py.lower t2)) eqn:E.
  - now rewrite (strip_leading_all_punct q Hq), (strip_leading_all_punct _ E).
  - now apply rstrip_punct_app.
Qed.

Lemma X3_normalize_ignores_case_and_wrapping_witness :
  all_punct "((" = true ∧ all_punct "!)" = true
  ∧ Py.lower "Don't" = Py.lower "DON'T"
  ∧ _normalize_token ("((" +:+ "Don't" +:+ "!)") = _normalize_token "DON'T".
Proof.
  split; [reflexivity|]. split; [reflexivity|]. split; [reflexivity|].
  apply (X3_normalize_ignores_case_and_wrapping "((" "!)" "Don't" "DON'T");
    reflexivity.
Defined.

(** X4: a token made of punctuation characters only contributes nothing:
    removing it from the list of tokens does not change the result. *)
Theorem X4_punctuation_token_vanishes (l1 l2 : list string) (tok : string)
    (sw : option (gset string)) (kn kp : bool) (return_type : string) :
  all_punct tok = true →
  remove_stopwords (Tokens (l1 ++ tok :: l2)) sw kn kp return_type
  = remove_stopwords (Tokens (l1 ++ l2)) sw kn kp return_type.
Proof.
  intros Ht. rewrite !remove_stopwords_filter. simpl raw_tokens_of.
  rewrite !map_app, !List.filter_app. simpl.
  rewrite (normalize_all_punct tok Ht). reflexivity.
Qed.

Lemma X4_punctuation_token_vanishes_witness :
  all_punct "..." = true
  ∧ remove_stopwords (Tokens (["good"] ++ "..." :: ["bad"])) None true false "text"
    = remove_stopwords (Tokens (["good"] ++ ["bad"])) None true false "text".
Proof.
  split; [reflexivity|].
  apply (X4_punctuation_token_vanishes ["good"] ["bad"] "..." None true false "text").
  reflexivity.
Defined.

(** X5: a word is in the output exactly when it is the normalized form of
    an input token, is not empty, and is a negation word under
    [keep_negations], a pronoun under [keep_pronouns], or no stopword. *)
Theorem X5_output_membership (x : text_or_tokens) (sw : option (gset string))
    (kn kp : bool) (w : string) :
  ∃ out, remove_stopwords x sw kn kp "tokens" = RList out
         ∧ (In w out ↔
            In w (map _normalize_token (raw_tokens_of x))
            ∧ w ≠ ""
            ∧ ((kn = true ∧ w ∈ NEGATIONS)
               ∨ (kp = true ∧ w ∈ PRONOUNS)
               ∨ w ∉ active_stopwords sw)).
Proof.
  eexists. split; [now apply remove_stopwords_tokens|].
  rewrite filter_In, retained_spec. reflexivity.
Qed.

(** X6: a larger stopword set, or a flag turned off, only removes tokens:
    the output is a subsequence of the output under the smaller stopword set
    and the flags that are on. *)
Theorem X6_monotone (x : text_or_tokens) (sw1 sw2 : option (gset string))
    (kn1 kn2 kp1 kp2 : bool) :
  active_stopwords sw1 ⊆ active_stopwords sw2 →
  (kn2 = true → kn1 = true) →
  (kp2 = true → kp1 = true) →
  ∃ out1 out2,
    remove_stopwords x sw1 kn1 kp1 "tokens" = RList out1
    ∧ remove_stopwords x sw2 kn2 kp2 "tokens" = RList out2
    ∧ sublist out2 out1.
Proof.
  intros Hsw Hkn Hkp. do 2 eexists.
  split; [now apply remove_stopwords_tokens|].
  split; [now apply remove_stopwords_tokens|].
  apply filter_sublist_mono. intros w. rewrite !retained_spec.
  intros (Hne & [[H1 H2] | [[H1 H2] | H]]); split; auto.
  right; right. intros Hin. apply H. now apply Hsw.
Qed.

Lemma X6_monotone_witness :
  active_stopwords (Some {["the"]}) ⊆ active_stopwords None
  ∧ ∃ out1 out2,
      remove_stopwords (Text test_text) (Some {["the"]}) true false "tokens"
      = RList out1
      ∧ remove_stopwords (Text test_text) None false false "tokens" = RList out2
      ∧ sublist out2 out1.
Proof.
  assert (H : active_stopwords (Some {["the"]}) ⊆ active_stopwords None)
    by (refine (bool_decide_unpack _ _); vm_compute; exact I).
  split; [exact H|].
  apply (X6_monotone (Text test_text) (Some {["the"]}) None true false false false H).
  - intros E. discriminate E.
  - intros E. exact E.
Defined.

(** X7: turning [keep_negations] on or off changes nothing when no negation
    word is a stopword, and turning [keep_pronouns] on or off changes nothing
    when no pronoun is a stopword. *)
Theorem X7_flags_irrelevant_when_disjoint (x : text_or_tokens)
    (sw : option (gset string)) (kn kp kn' kp' : bool) (return_type : string) :
  (kn ≠ kn' → active_stopwords sw ## NEGATIONS) →
  (kp ≠ kp' → active_stopwords sw ## PRONOUNS) →
  remove_stopwords x sw kn kp return_type
  = remove_stopwords x sw kn' kp' return_type.
Proof. apply flags_irrelevant. Qed.

Lemma X7_flags_irrelevant_when_disjoint_witness :
  (true ≠ false → active_stopwords (Some {["the"; "i"]}) ## NEGATIONS)
  ∧ (false ≠ false → active_stopwords (Some {["the"; "i"]}) ## PRONOUNS)
  ∧ remove_stopwords (Text test_text) (Some {["the"; "i"]}) true false "text"
    = remove_stopwords (Text test_text) (Some {["the"; "i"]}) false false "text".
Proof.
  assert (H1 : true ≠ false → active_stopwords (Some {["the"; "i"]}) ## NEGATIONS)
    by (intros _; refine (bool_decide_unpack _ _); vm_compute; exact I).
  assert (H2 : false ≠ false → active_stopwords (Some {["the"; "i"]}) ## PRONOUNS)
    by (intros E; destruct (E eq_refl)).
  split; [exact H1|]. split; [exact H2|].
  exact (X7_flags_irrelevant_when_disjoint (Text test_text)
           (Some {["the"; "i"]}) true false false false "text" H1 H2).
Defined.

(** X8: under the default stopword set the two flags have no effect: no
    negation word and no pronoun is a default stopword, so every
    configuration returns what [keep_negations=False], [keep_pronouns=False]
    returns. *)
Theorem X8_default_flags_no_effect (x : text_or_tokens) (kn kp : bool)
    (return_type : string) :
  remove_stopwords x None kn kp return_type
  = remove_stopwords x None false false return_type.
Proof.
  apply flags_irrelevant; intros _;
    [apply default_disjoint_negations | apply default_disjoint_pronouns].
Qed.

Lemma union3_elements (a b c : gset string) (w : string) :
  w ∈ a ∪ b ∪ c → In w (elements a ++ elements b ++ elements c).
Proof.
  intros Hw. rewrite !in_app_iff, <- !list_elem_of_In, !elem_of_elements.
  apply elem_of_union in Hw as [Hw|Hw]; [|auto].
  apply elem_of_union in Hw as [Hw|Hw]; auto.
Qed.

Lemma canonical_spec (w : string) :
  canonical w = true → _normalize_token w = w ∧ w ≠ "".
Proof.
  intros [H1 H2]%andb_prop. split; [now apply String.eqb_eq|].
  intros E. rewrite E in H2. discriminate H2.
Qed.

(** X9: the three word sets hold canonical words only (each word is its own
    normalized form and is not empty), and no two of them share a word. *)
Theorem X9_word_sets_canonical :
  (∀ w, w ∈ DEFAULT_STOPWORDS ∪ NEGATIONS ∪ PRONOUNS →
        _normalize_token w = w ∧ w ≠ "")
  ∧ DEFAULT_STOPWORDS ## NEGATIONS
  ∧ DEFAULT_STOPWORDS ## PRONOUNS
  ∧ NEGATIONS ## PRONOUNS.
Proof.
  split; [|split; [exact default_disjoint_negations|];
           split; [exact default_disjoint_pronouns
                  | exact negations_disjoint_pronouns]].
  intros w Hw. apply canonical_spec.
  apply (proj1 (forallb_forall _ _) word_sets_canonical).
  exact (union3_elements _ _ _ w Hw).
Qed.

(** X10: the filter works token by token: the output for two lists of
    tokens put one after the other, and for two texts joined by a space, is
    the output for the first followed by the output for the second. *)
Theorem X10_concatenation (sw : option (gset string)) (kn kp : bool) :
  (∀ l1 l2, ∃ out1 out2,
      remove_stopwords (Tokens l1) sw kn kp "tokens" = RList out1
      ∧ remove_stopwords (Tokens l2) sw kn kp "tokens" = RList out2
      ∧ remove_stopwords (Tokens (l1 ++ l2)) sw kn kp "tokens"
        = RList (out1 ++ out2))
  ∧ (∀ s1 s2, ∃ out1 out2,
      remove_stopwords (Text s1) sw kn kp "tokens" = RList out1
      ∧ remove_stopwords (Text s2) sw kn kp "tokens" = RList out2
      ∧ remove_stopwords (Text (s1 +:+ " " +:+ s2)) sw kn kp "tokens"
        = RList (out1 ++ out2)).
Proof.
  split.
  - intros l1 l2. do 2 eexists.
    split; [now apply remove_stopwords_tokens|].
    split; [now apply remove_stopwords_tokens|].
    rewrite remove_stopwords_tokens by discriminate. simpl raw_tokens_of.
    now rewrite map_app, List.filter_app.
  - intros s1 s2. do 2 eexists.
    split; [now apply remove_stopwords_tokens|].
    split; [now apply remove_stopwords_tokens|].
    rewrite remove_stopwords_tokens by discriminate.
    unfold raw_tokens_of, Py.split.
    change (" " +:+ s2) with (String " " s2).
    rewrite (split_from_sep "" s1 s2 " " eq_refl).
    now rewrite map_app, List.filter_app.
Qed.

(** X11: the result depends on the normalized forms of the tokens only:
    normalizing the tokens beforehand does not change it. *)
Theorem X11_prenormalized_input (x : text_or_tokens) (sw : option (gset string))
    (kn kp : bool) (return_type : string) :
  remove_stopwords (Tokens (map _normalize_token (raw_tokens_of x)))
    sw kn kp return_type
  = remove_stopwords x sw kn kp return_type.
Proof.
  rewrite !remove_stopwords_filter. simpl raw_tokens_of.
  rewrite map_map, (map_ext _ _normalize_token); [reflexivity|].
  intros t. apply normalize_idem.
Qed.

(** X12: every output token is in lower case and neither starts nor ends
    with a punctuation character. *)
Theorem X12_output_tokens_normal (x : text_or_tokens) (sw : option (gset string))
    (kn kp : bool) :
  ∃ out, remove_stopwords x sw kn kp "tokens" = RList out
         ∧ ∀ w, In w out → Py.lower w = w ∧ head_ok w ∧ last_ok w.
Proof.
  eexists. split; [now apply remove_stopwords_tokens|].
  intros w [Hw _]%filter_In. apply in_map_iff in Hw as (tok & <- & _).
  split; [apply normalize_lowered|].
  split; [apply normalize_head_ok | apply normalize_last_ok].
Qed.

(** X13: when no input token holds a white-space character, splitting the
    text result gives the token result back. *)
Theorem X13_text_splits_back (x : text_or_tokens) (sw : option (gset string))
    (kn kp : bool) :
  Forall (λ t, no_space t = true) (raw_tokens_of x) →
  ∃ out txt,
    remove_stopwords x sw kn kp "tokens" = RList out
    ∧ remove_stopwords x sw kn kp "text" = RStr txt
    ∧ Py.split txt = out.
Proof.
  intros Hx. do 2 eexists.
  split; [now apply remove_stopwords_tokens|].
  split; [apply remove_stopwords_text|].
  apply split_join. now apply output_words.
Qed.

Lemma X13_text_splits_back_witness :
  Forall (λ t, no_space t = true) (raw_tokens_of (Tokens ["The"; "End."]))
  ∧ ∃ out txt,
      remove_stopwords (Tokens ["The"; "End."]) None true false "tokens" = RList out
      ∧ remove_stopwords (Tokens ["The"; "End."]) None true false "text" = RStr txt
      ∧ Py.split txt = out.
Proof.
  assert (H : Forall (λ t, no_space t = true) (raw_tokens_of (Tokens ["The"; "End."])))
    by (repeat constructor).
  split; [exact H|].
  exact (X13_text_splits_back (Tokens ["The"; "End."]) None true false H).
Defined.

(** X14: for a text, the text result is a fixpoint: filtering it again with
    the same configuration returns it unchanged, and its tokens are the
    tokens of the first result. *)
Theorem X14_text_result_fixpoint (s : string) (sw : option (gset string))
    (kn kp : bool) :
  ∃ txt,
    remove_stopwords (Text s) sw kn kp "text" = RStr txt
    ∧ remove_stopwords (Text txt) sw kn kp "text" = RStr txt
    ∧ remove_stopwords (Text txt) sw kn kp "tokens"
      = remove_stopwords (Text s) sw kn kp "tokens".
Proof.
  eexists. split; [apply remove_stopwords_text|].
  set (p := retained (active_stopwords sw) kn kp).
  set (out := List.filter p (map _normalize_token (raw_tokens_of (Text s)))).
  assert (Hsplit : Py.split (Py.join " " out) = out)
    by (apply split_join, output_words, split_no_space).
  assert (Hfix : List.filter p (map _normalize_token out) = out).
  { rewrite (map_ext_in _ id), map_id.
    - apply filter_all. now intros w [_ Hw]%filter_In.
    - intros w [Hw _]%filter_In. apply in_map_iff in Hw as (tok & <- & _).
      apply normalize_idem. }
  rewrite remove_stopwords_text, !remove_stopwords_tokens by discriminate.
  unfold raw_tokens_of at 1 2. rewrite Hsplit. fold p. rewrite Hfix.
  split; reflexivity.
Qed.

(** ** Properties of the unit prompt and the category chain *)

Lemma ask_unit_rejected (rejected tail printed : list string) :
  Forall (λ r, BMI.accepted r = false) rejected →
  BMI.ask_unit (rejected ++ tail) printed
  = BMI.ask_unit tail (printed ++ repeat BMI.invalid_unit (length rejected)).
Proof.
  intros H. revert printed.
  induction H as [|r rejected Hr _ IH]; intros printed; simpl.
  - now rewrite app_nil_r.
  - rewrite Hr, IH, <- app_assoc. reflexivity.
Qed.

(** X15: the prompt loop returns the first answer it accepts, as typed,
    after one error line for each answer before it; when no answer is
    accepted it never leaves the loop with a unit. *)
Theorem X15_ask_unit_first_accepted (rejected rest printed : list string)
    (a : string) :
  Forall (λ r, BMI.accepted r = false) rejected →
  BMI.ask_unit rejected printed = None
  ∧ (BMI.accepted a = true →
     BMI.ask_unit (rejected ++ a :: rest) printed
     = Some (a, rest, printed ++ repeat BMI.invalid_unit (length rejected))).
Proof.
  intros H. split.
  - rewrite <- (app_nil_r rejected), (ask_unit_rejected _ [] _ H). reflexivity.
  - intros Ha. rewrite (ask_unit_rejected _ _ _ H). simpl. now rewrite Ha.
Qed.

Lemma X15_ask_unit_first_accepted_witness :
  Forall (λ r, BMI.accepted r = false) ["kg"; " metric"]
  ∧ BMI.accepted "Imperial" = true
  ∧ BMI.ask_unit ["kg"; " metric"] [] = None
  ∧ BMI.ask_unit (["kg"; " metric"] ++ "Imperial" :: ["180"; "75"]) []
    = Some ("Imperial", ["180"; "75"],
            [] ++ repeat BMI.invalid_unit (length ["kg"; " metric"])).
Proof.
  assert (H : Forall (λ r, BMI.accepted r = false) ["kg"; " metric"])
    by (repeat constructor).
  assert (Ha : BMI.accepted "Imperial" = true) by reflexivity.
  split; [exact H|]. split; [exact Ha|].
  destruct (X15_ask_unit_first_accepted ["kg"; " metric"] ["180"; "75"] []
              "Imperial" H) as [Hnone Hsome].
  split; [exact Hnone | exact (Hsome Ha)].
Defined.

(** X16: the prompt accepts "metric" in any case, but only the answer typed
    exactly "metric" selects the metric formula: every other accepted
    spelling of it is computed with the imperial formula. *)
Theorem X16_metric_spelling (a : string) :
  Py.lower a = "metric" →
  BMI.accepted a = true
  ∧ (BMI.formula_for a = BMI.Metric_formula ↔ a = "metric")
  ∧ (a ≠ "metric" → BMI.formula_for a = BMI.Imperial_formula).
Proof.
  intros Hl. unfold BMI.accepted, BMI.formula_for. rewrite Hl.
  split; [reflexivity|].
  destruct (String.eqb_spec a "metric") as [E|E]; split;
    try split; try tauto; try discriminate.
Qed.

Lemma X16_metric_spelling_witness :
  Py.lower "Metric" = "metric"
  ∧ BMI.accepted "Metric" = true
  ∧ BMI.formula_for "Metric" = BMI.Imperial_formula.
Proof.
  assert (H : Py.lower "Metric" = "metric") by reflexivity.
  split; [exact H|].
  destruct (X16_metric_spelling "Metric" H) as (Ha & _ & Hf).
  split; [exact Ha|]. apply Hf. discriminate.
Defined.

Lemma le_const_true (q k : Q) : (q <= k)%Q → BMI.le_const (BMI.Finite q) k = true.
Proof. intros H. now apply Qle_bool_iff. Qed.

Lemma le_const_false (q k : Q) : (k < q)%Q → BMI.le_const (BMI.Finite q) k = false.
Proof.
  intros H. simpl. destruct (Qle_bool q k) eqn:E; [|reflexivity].
  apply Qle_bool_iff in E. lra.
Qed.

(** X17: the category of a finite BMI is set by the interval it lies in,
    upper bounds included and with no lower bound on "Severe Thinness" (a
    zero or negative BMI gets it too); a NaN fails every comparison and
    gets "Obese Class III", like plus infinity. *)
Theorem X17_category_intervals (q : Q) :
  ((q <= 16)%Q → BMI.category (BMI.Finite q) = "Severe Thinness")
  ∧ ((16 < q)%Q → (q <= 17)%Q → BMI.category (BMI.Finite q) = "Moderate Thinness")
  ∧ ((17 < q)%Q → (q <= 37 # 2)%Q → BMI.category (BMI.Finite q) = "Mild Thinness")
  ∧ ((37 # 2 < q)%Q → (q <= 25)%Q → BMI.category (BMI.Finite q) = "Normal")
  ∧ ((25 < q)%Q → (q <= 30)%Q → BMI.category (BMI.Finite q) = "Overweight")
  ∧ ((30 < q)%Q → (q <= 35)%Q → BMI.category (BMI.Finite q) = "Obese Class I")
  ∧ ((35 < q)%Q → (q <= 40)%Q → BMI.category (BMI.Finite q) = "Obese Class II")
  ∧ ((40 < q)%Q → BMI.category (BMI.Finite q) = "Obese Class III")
  ∧ BMI.category BMI.NaN = "Obese Class III"
  ∧ BMI.category BMI.PosInf = "Obese Class III"
  ∧ BMI.category BMI.NegInf = "Severe Thinness".
Proof.
  unfold BMI.category.
  repeat match goal with |- _ ∧ _ => split end; try reflexivity; intros;
    repeat first
      [ rewrite (le_const_true q _) by assumption
      | rewrite (le_const_false q _) by lra ];
    reflexivity.
Qed.

Lemma X17_category_intervals_witness :
  (17 < 37 # 2)%Q ∧ (37 # 2 <= 37 # 2)%Q ∧ (-(1) <= 16)%Q
  ∧ BMI.category (BMI.Finite (37 # 2)) = "Mild Thinness"
  ∧ BMI.category (BMI.Finite (-(1))%Q) = "Severe Thinness".
Proof.
  assert (H1 : (17 < 37 # 2)%Q) by reflexivity.
  assert (H2 : (37 # 2 <= 37 # 2)%Q) by (unfold Qle; simpl; lia).
  assert (H3 : (-(1) <= 16)%Q) by (unfold Qle; simpl; lia).
  split; [exact H1|]. split; [exact H2|]. split; [exact H3|]. split.
  - exact (proj1 (proj2 (proj2 (X17_category_intervals (37 # 2)))) H1 H2).
  - exact (proj1 (X17_category_intervals (-(1))%Q) H3).
Defined.
